(** * Bank Customer Insights dashboard: filter, insight and chart-series pipeline

    A shallow embedding of [streamlit_app_bank.py].  The script is a straight
    line of pandas expressions over one data frame; every expression that the
    properties below talk about is given a definition of the same name.

    Conventions of the embedding.
    - A pandas [Series] is the list of its values in index order; a boolean
      mask is a [Series bool]; [df[mask]] keeps the rows whose mask entry is
      [true].
    - Python exceptions are values: an expression that can raise has type
      [result A].
    - A [float64] is either [NaN] or finite; a finite one is represented by
      the exact rational it approximates, rounding to binary doubles is not
      modelled.  The statements below therefore say of a finite float only
      that it is finite, its sign, and bounds by integers, which rounding
      preserves; none states its exact value. *)

From Stdlib Require Import List String Ascii Bool Arith ZArith QArith Lia.
From Stdlib Require Import Permutation Sorted Mergesort Orders OrderedTypeEx.
Import ListNotations.

Close Scope Q_scope.

(* ================================================================== *)
(** ** Python values and exceptions *)
(* ================================================================== *)

Module Py.

Inductive exn : Set := KeyError | TypeError | ValueError.

Inductive result (A : Type) : Type :=
| Ok (a : A)
| Raise (e : exn).
Arguments Ok {A} a.
Arguments Raise {A} e.

Definition bind {A B : Type} (m : result A) (k : A -> result B) : result B :=
  match m with
  | Ok a => k a
  | Raise e => Raise e
  end.

(** [float64]: not-a-number or a finite value. *)
Inductive float : Set :=
| NaN
| Fin (q : Q).

(** The dynamic values that reach the f-string of the insight block. *)
Inductive value : Set :=
| PyNone
| PyInt (z : Z)
| PyFloat (x : float)
| PyStr (s : string).

(** One replacement field of an f-string after formatting.  The digits of
    a fixed-point field are kept symbolic: [Fixed p x] stands for
    [format(x, ".pf")]. *)
Inductive piece : Set :=
| Text (s : string)
| Fixed (prec : nat) (x : float).

(** [format(v, ".<prec>f")].  [NoneType.__format__] rejects every
    non-empty format string with [TypeError]; [str] rejects the code
    ['f'] with [ValueError]; [int] and [float] accept it. *)
Definition format_f (prec : nat) (v : value) : result piece :=
  match v with
  | PyNone => Raise TypeError
  | PyInt z => Ok (Fixed prec (Fin (inject_Z z)))
  | PyFloat x => Ok (Fixed prec x)
  | PyStr _ => Raise ValueError
  end.

End Py.

Import Py.

Declare Scope py_scope.
Delimit Scope py_scope with py.
Notation "x <- m ;; k" := (bind m (fun x => k))
(at level 61, m at next level, right associativity) : py_scope.
Open Scope py_scope.

(* ================================================================== *)
(** ** The pandas operations the script uses *)
(* ================================================================== *)

Module Pandas.

Inductive dtype : Set := int64 | float64 | object.

(** [include='number'] of [select_dtypes]. *)
Definition is_number (d : dtype) : bool :=
  match d with
  | int64 | float64 => true
  | object => false
  end.

Inductive cell : Set :=
| CInt (z : Z)
| CFloat (x : float)
| CStr (s : string).

(** One record of the data set.  The four columns the script reads by name
    have a field each ([month] and [y] are read only when the frame lists
    the column); the remaining cells are carried along untouched. *)
Record Row : Set := mkRow {
  age : Z;
  job : string;
  month : string;
  y : string;
  others : list cell
}.

Record DataFrame : Set := mkFrame {
  columns : list (string * dtype);
  rows : list Row
}.

Definition Series (A : Type) : Type := list A.

(** ["name" in df.columns] *)
Definition has_column (df : DataFrame) (name : string) : bool :=
  existsb (fun c => String.eqb (fst c) name) (columns df).

(** [df["name"]]: [KeyError] when the frame has no such column. *)
Definition getitem {A : Type} (df : DataFrame) (name : string)
           (field : Row -> A) : result (Series A) :=
  if has_column df name then Ok (map field (rows df)) else Raise KeyError.

(** [len(df)] *)
Definition len (df : DataFrame) : nat := List.length (rows df).

(** [df.empty]: true when any axis has length zero. *)
Definition empty (df : DataFrame) : bool :=
  match columns df, rows df with
  | [], _ => true
  | _, [] => true
  | _ :: _, _ :: _ => false
  end.

(** Element-wise comparisons of a series with a scalar. *)
Definition ge (s : Series Z) (k : Z) : Series bool := map (fun a => (k <=? a)%Z) s.
Definition le (s : Series Z) (k : Z) : Series bool := map (fun a => (a <=? k)%Z) s.

(** Element-wise [&] of two masks over the same index. *)
Fixpoint mask_and (m1 m2 : Series bool) : Series bool :=
  match m1, m2 with
  | b1 :: t1, b2 :: t2 => (b1 && b2) :: mask_and t1 t2
  | _, _ => []
  end.

(** [x in values] for strings. *)
Definition mem (x : string) (values : list string) : bool :=
  existsb (String.eqb x) values.

(** [s.isin(values)] *)
Definition isin (s : Series string) (values : list string) : Series bool :=
  map (fun x => mem x values) s.

(** The rows selected by a mask. *)
Fixpoint select (mask : Series bool) (rs : list Row) : list Row :=
  match mask, rs with
  | b :: m, r :: t => if b then r :: select m t else select m t
  | _, _ => []
  end.

(** [df[mask]]: same columns, the rows where the mask holds. *)
Definition loc (df : DataFrame) (mask : Series bool) : DataFrame :=
  mkFrame (columns df) (select mask (rows df)).

(** [s.mean()] of an integer series: [NaN] on the empty series. *)
Definition mean (s : Series Z) : float :=
  match s with
  | [] => NaN
  | _ :: _ => Fin (Qred (fold_right Z.add 0%Z s # Pos.of_nat (List.length s))%Q)
  end.

(** Occurrence counts keyed in order of first appearance (the hash table
    pass of [value_counts] and [mode]). *)
Fixpoint bump (v : string) (acc : list (string * nat)) : list (string * nat) :=
  match acc with
  | [] => [(v, 1)]
  | (k, c) :: t => if String.eqb k v then (k, S c) :: t else (k, c) :: bump v t
  end.

Definition counts (s : Series string) : list (string * nat) :=
  fold_left (fun acc v => bump v acc) s [].

(** Descending order on the count of an entry. *)
Definition count_ge (a b : string * nat) : Prop := snd b <= snd a.

(** The sorting kernel behind [sort_values(ascending=False)].  pandas
    passes [kind='quicksort'] to numpy, which promises a sorted
    rearrangement and leaves the order of equal keys open; the kernel is
    therefore an interface with exactly that contract. *)
Class SortKind : Type := {
  sort_desc : list (string * nat) -> list (string * nat);
  sort_desc_perm : forall l, Permutation (sort_desc l) l;
  sort_desc_sorted : forall l, StronglySorted count_ge (sort_desc l)
}.

(** [s.value_counts()]: the counts, most frequent first. *)
Definition value_counts `{SortKind} (s : Series string) : list (string * nat) :=
  sort_desc (counts s).

(** [s.value_counts(normalize=True)]: every count divided by the sum of
    the counts. *)
Definition value_counts_normalized `{SortKind} (s : Series string)
  : list (string * Q) :=
  let vc := value_counts s in
  let total := fold_right (fun kc n => snd kc + n) 0 vc in
  map (fun kc => (fst kc, Qred (Z.of_nat (snd kc) # Pos.of_nat total)%Q)) vc.

(** [series.get(key)]: the entry labelled [key], if any. *)
Fixpoint get {V : Type} (key : string) (s : list (string * V)) : option V :=
  match s with
  | [] => None
  | (k, v) :: t => if String.eqb k key then Some v else get key t
  end.

(** Ascending sort of strings by code point ([np.sort] on an object
    array). *)
Module StringOrder <: TotalLeBool.
Definition t := string.
Definition leb (a b : string) : bool := String.leb a b.
Theorem leb_total : forall a b, leb a b = true \/ leb b a = true.
Proof. exact String.leb_total. Qed.
End StringOrder.

Module StringSort := Sort StringOrder.

Definition max_count (cs : list (string * nat)) : nat :=
  fold_right (fun kc m => Nat.max (snd kc) m) 0 cs.

(** [s.mode()]: the values of maximal count, sorted. *)
Definition mode (s : Series string) : Series string :=
  let cs := counts s in
  StringSort.sort
    (map fst (filter (fun kc => snd kc =? max_count cs) cs)).

(** [s[0]] on a series with the default index. *)
Definition item0 {A : Type} (s : Series A) : result A :=
  match s with
  | x :: _ => Ok x
  | [] => Raise KeyError
  end.

(** [df.select_dtypes(include='number')] *)
Definition select_dtypes_number (df : DataFrame) : DataFrame :=
  mkFrame (filter (fun c => is_number (snd c)) (columns df)) (rows df).

End Pandas.

Import Pandas.

(* ================================================================== *)
(** ** The script *)
(* ================================================================== *)

Module App.

(** The sidebar selections of one run (lines 41, 45 and 48-54). *)
Record Criteria : Set := mkCriteria {
  age_range : Z * Z;
  selected_jobs : list string;
  selected_months : option (list string)
}.

(** Lines 48-54: the month multiselect exists only when the data set has a
    [month] column; otherwise [selected_months] is [None]. *)
Definition month_selection (df : DataFrame) (chosen : list string)
  : option (list string) :=
  if has_column df "month" then Some chosen else None.

(** Lines 59-66: the filtered view. *)
Definition filtered (df : DataFrame) (c : Criteria) : result DataFrame :=
  lo <- getitem df "age" age ;;
  hi <- getitem df "age" age ;;
  jobs <- getitem df "job" job ;;
  let view :=
    loc df (mask_and (mask_and (ge lo (fst (age_range c)))
                               (le hi (snd (age_range c))))
                     (isin jobs (selected_jobs c))) in
  match selected_months c with
  | Some months =>
      m <- getitem view "month" month ;;
      Ok (loc view (isin m months))
  | None => Ok view
  end.

(** Line 79. *)
Definition avg_age (view : DataFrame) : result float :=
  ages <- getitem view "age" age ;;
  Ok (mean ages).

(** Line 80. *)
Definition top_job (view : DataFrame) : result string :=
  if negb (empty view) then
    jobs <- getitem view "job" job ;;
    item0 (mode jobs)
  else Ok "N/A"%string.

(** Lines 81-84.  [get("yes", 0)] yields the normalized share of ["yes"],
    a float, or the integer default [0]. *)
Definition subscription_rate `{SortKind} (view : DataFrame) : result value :=
  if has_column view "y" then
    labels <- getitem view "y" y ;;
    Ok (match get "yes" (value_counts_normalized labels) with
        | Some share => PyFloat (Fin (Qred (share * 100)%Q))
        | None => PyInt (0 * 100)
        end)
  else Ok PyNone.

Record Insight : Set := mkInsight {
  insight_avg_age : float;
  insight_top_job : string;
  insight_subscription_rate : value
}.

(** Lines 79-84 in order. *)
Definition insight `{SortKind} (view : DataFrame) : result Insight :=
  a <- avg_age view ;;
  t <- top_job view ;;
  s <- subscription_rate view ;;
  Ok (mkInsight a t s).

(** The f-string of lines 86-92; its fields are formatted left to right.
    Layout whitespace of the literal is left out of the text pieces. *)
Definition insight_block (i : Insight) : result (list piece) :=
  f1 <- format_f 1 (PyFloat (insight_avg_age i)) ;;
  f3 <- format_f 2 (insight_subscription_rate i) ;;
  Ok [ Text "**Insight Highlights**";
       Text "- Average age of selected customers: "; f1;
       Text "- Most common job in this customer segment: ";
       Text (insight_top_job i);
       Text "- Estimated subscription likelihood (term deposit): "; f3;
       Text "%" ].

(** Lines 79-92: compute the summary, then hand the text to [st.info]. *)
Definition st_info `{SortKind} (view : DataFrame) : result (list piece) :=
  i <- insight view ;;
  insight_block i.

(** The radio of line 152. *)
Inductive sort_type : Set := Alphabetical | MostCommon.

(** Lines 149-154. *)
Definition job_counts `{SortKind} (view : DataFrame) (mode : sort_type)
  : result (list (string * nat)) :=
  jobs <- getitem view "job" job ;;
  let job_counts := value_counts jobs in
  Ok (match mode with
      | MostCommon => sort_desc job_counts
      | Alphabetical => job_counts
      end).

(** Line 171. *)
Definition numeric_cols (view : DataFrame) : DataFrame :=
  select_dtypes_number view.

(** What the correlation tab shows: the warning of line 174 or the heat map
    of the correlation matrix, of which only the labels (one per numeric
    column) are modelled; its entries are floating-point Pearson
    coefficients. *)
Inductive corr_output : Set :=
| Warning (msg : string)
| Heatmap (labels : list string).

(** Lines 171-183. *)
Definition tab_corr (view : DataFrame) : corr_output :=
  if empty (numeric_cols view) then
    Warning "Not enough numeric data available for a correlation heatmap."
  else Heatmap (map fst (columns (numeric_cols view))).

Definition is_warning (o : corr_output) : bool :=
  match o with Warning _ => true | Heatmap _ => false end.

End App.

Import App.

(* ================================================================== *)
(** ** The sidebar and the data preview *)
(* ================================================================== *)

Module Sidebar.

(** What [min()] and [max()] of the age column return: a numpy integer, or
    the float nan on a series without values. *)
Inductive number : Set :=
| NInt (z : Z)
| NFloat (x : float).

(** [s.min()] *)
Definition smin (s : Series Z) : number :=
  match s with
  | [] => NFloat NaN
  | a :: t => NInt (fold_right Z.min a t)
  end.

(** [s.max()] *)
Definition smax (s : Series Z) : number :=
  match s with
  | [] => NFloat NaN
  | a :: t => NInt (fold_right Z.max a t)
  end.

(** [int(x)]: truncation toward zero; [ValueError] on nan. *)
Definition py_int (x : number) : result Z :=
  match x with
  | NInt z => Ok z
  | NFloat NaN => Raise ValueError
  | NFloat (Fin q) => Ok (Z.quot (Qnum q) (Zpos (Qden q)))
  end.

(** [s.unique().tolist()]: the distinct values in order of appearance. *)
Definition unique (s : Series string) : list string :=
  fold_left (fun acc v => if mem v acc then acc else acc ++ [v]) s [].

(** [sorted(l)] on strings. *)
Definition sorted (l : list string) : list string := StringSort.sort l.

(** The bounds and options the widgets are built from (lines 39-54). *)
Record Options : Set := mkOptions {
  min_age : Z;
  max_age : Z;
  job_options : list string;
  month_options : option (list string)
}.

(** Lines 39, 40, 44 and 48-54 in order. *)
Definition sidebar_options (df : DataFrame) : result Options :=
  a1 <- getitem df "age" age ;;
  min_age <- py_int (smin a1) ;;
  a2 <- getitem df "age" age ;;
  max_age <- py_int (smax a2) ;;
  j <- getitem df "job" job ;;
  let job_options := sorted (unique j) in
  if has_column df "month" then
    m <- getitem df "month" month ;;
    Ok (mkOptions min_age max_age job_options (Some (sorted (unique m))))
  else Ok (mkOptions min_age max_age job_options None).

(** The criteria of a run in which every widget returns the default the
    script passes to it: the full slider range [(min_age, max_age)] and
    [default=job_options], [default=month_options]. *)
Definition default_criteria (df : DataFrame) : result Criteria :=
  o <- sidebar_options df ;;
  Ok (mkCriteria (min_age o, max_age o) (job_options o) (month_options o)).

(** [df.head(n)] *)
Definition head (n : nat) (df : DataFrame) : DataFrame :=
  mkFrame (columns df) (firstn n (rows df)).

(** Line 125: the frame handed to the data preview. *)
Definition preview (view : DataFrame) : DataFrame := head 15 view.

End Sidebar.

Import Sidebar.

(* ================================================================== *)
(** ** The names and objects of the filter block *)
(* ================================================================== *)

Module Namespace.













End Namespace.

Import Namespace.

(* ================================================================== *)
(** ** A stable sorting kernel *)
(* ================================================================== *)

(** Insertion of an entry in front of the first entry whose count does not
    exceed its own: entries of equal count keep their relative order. *)
Fixpoint insert_desc (x : string * nat) (l : list (string * nat))
  : list (string * nat) :=
  match l with
  | [] => [x]
  | h :: t => if snd h <=? snd x then x :: h :: t else h :: insert_desc x t
  end.

Definition stable_sort_desc (l : list (string * nat)) : list (string * nat) :=
  fold_right insert_desc [] l.



(* ================================================================== *)
(** ** Predicates of the specification *)
(* ================================================================== *)

(** The three predicates of a criteria on one record. *)
Definition age_ok (c : Criteria) (r : Row) : Prop :=
  (fst (age_range c) <= age r <= snd (age_range c))%Z.

Definition job_ok (c : Criteria) (r : Row) : Prop :=
  In (job r) (selected_jobs c).

Definition month_ok (c : Criteria) (r : Row) : Prop :=
  match selected_months c with
  | None => True
  | Some months => In (month r) months
  end.

(** The same conjunction as a boolean test. *)
Definition keep (c : Criteria) (r : Row) : bool :=
  (fst (age_range c) <=? age r)%Z && (age r <=? snd (age_range c))%Z
  && mem (job r) (selected_jobs c)
  && match selected_months c with
     | None => true
     | Some months => mem (month r) months
     end.

(** The columns the filter block indexes by name are present. *)
Definition indexable (df : DataFrame) (c : Criteria) : bool :=
  has_column df "age" && has_column df "job"
  && match selected_months c with
     | None => true
     | Some _ => has_column df "month"
     end.

(** A sentinel for "no rate": [None] or not-a-number. *)
Definition is_sentinel (v : value) : bool :=
  match v with
  | PyNone => true
  | PyFloat NaN => true
  | _ => false
  end.

(** Job names in lexicographically non-decreasing order. *)
Definition alphabetical (jc : list (string * nat)) : Prop :=
  StronglySorted (fun a b => String.leb (fst a) (fst b) = true) jc.

(** Occurrences of a job in a series. *)
Definition occurrences (s : Series string) (k : string) : nat :=
  count_occ string_dec s k.


(** The sum of the counts of a series of counts. *)
Definition total (cs : list (string * nat)) : nat :=
  fold_right (fun kc n => snd kc + n) 0 cs.

(** [c1] selects no more than [c2]: a narrower age range, fewer jobs and,
    where [c2] selects months, fewer months. *)
Definition narrower (c1 c2 : Criteria) : Prop :=
  (fst (age_range c2) <= fst (age_range c1))%Z /\
  (snd (age_range c1) <= snd (age_range c2))%Z /\
  incl (selected_jobs c1) (selected_jobs c2) /\
  match selected_months c2 with
  | None => True
  | Some m2 =>
      match selected_months c1 with
      | None => False
      | Some m1 => incl m1 m2
      end
  end.

(* ================================================================== *)
(** ** Sample data *)
(* ================================================================== *)

Module Sample.

Open Scope string_scope.

(** The three-record scenario of the specification. *)
Definition scenario : DataFrame :=
  mkFrame [("age", int64); ("job", object); ("y", object)]
    [ mkRow 30 "admin" "" "yes" [];
      mkRow 50 "admin" "" "no" [];
      mkRow 40 "technician" "" "yes" [] ].

(** Records with a campaign month and one more numeric column. *)
Definition campaign : DataFrame :=
  mkFrame [("age", int64); ("job", object); ("month", object);
           ("duration", int64); ("y", object)]
    [ mkRow 56 "housemaid" "may" "no" [CInt 261];
      mkRow 37 "services" "may" "no" [CInt 226];
      mkRow 41 "blue-collar" "jun" "yes" [CInt 1575];
      mkRow 25 "services" "jul" "no" [CInt 50];
      mkRow 29 "blue-collar" "jun" "no" [CInt 137] ].

(** A data set without the label column. *)
Definition unlabelled : DataFrame :=
  mkFrame [("age", int64); ("job", object)]
    [ mkRow 30 "admin" "" "" []; mkRow 44 "retired" "" "" [] ].

(** Two technicians and one admin. *)
Definition technicians : DataFrame :=
  mkFrame [("age", int64); ("job", object)]
    [ mkRow 31 "technician" "" "" [];
      mkRow 45 "technician" "" "" [];
      mkRow 52 "admin" "" "" [] ].

Definition all_ages : Z * Z := (17%Z, 98%Z).

Definition everyone : Criteria :=
  mkCriteria all_ages
    ["admin"; "blue-collar"; "housemaid"; "retired"; "services"; "technician"]
    None.

(** No job type selected. *)
Definition nobody : Criteria := mkCriteria all_ages [] None.

Definition summer : Criteria :=
  mkCriteria (26%Z, 60%Z) ["blue-collar"; "services"] (Some ["jun"; "jul"]).

(** The scenario data with no job selected: the label column and one
    numeric column, no rows. *)
Definition scenario_nobody : DataFrame :=
  mkFrame [("age", int64); ("job", object); ("y", object)] [].

(** A data set with a header and no records. *)
Definition no_records : DataFrame :=
  mkFrame [("age", object); ("job", object); ("y", object)] [].


(** A narrower selection than [summer]. *)
Definition june : Criteria :=
  mkCriteria (30%Z, 50%Z) ["blue-collar"] (Some ["jun"]).

End Sample.

(* ================================================================== *)
(** ** Masks and the filtered view *)
(* ================================================================== *)

Section MaskFacts.

Variable A : Type.

Lemma mask_and_map (p q : A -> bool) (l : list A) :
  mask_and (map p l) (map q l) = map (fun x => p x && q x) l.
Proof.
  induction l as [|x l IH]; simpl; [reflexivity | now rewrite IH].
Qed.

Lemma filter_twice (p q : A -> bool) (l : list A) :
  filter q (filter p l) = filter (fun x => p x && q x) l.
Proof.
  induction l as [|x l IH]; simpl; [reflexivity|].
  destruct (p x); simpl; [destruct (q x)|]; now rewrite IH.
Qed.

End MaskFacts.

Lemma select_map (p : Row -> bool) (rs : list Row) :
  select (map p rs) rs = filter p rs.
Proof.
  induction rs as [|r rs IH]; simpl; [reflexivity|].
  destruct (p r); now rewrite IH.
Qed.

Lemma mem_In (x : string) (l : list string) : mem x l = true <-> In x l.
Proof.
  unfold mem. rewrite existsb_exists. split.
  - intros [v [Hin Heq]]. apply String.eqb_eq in Heq. now subst.
  - intros Hin. exists x. split; [assumption | apply String.eqb_refl].
Qed.

Lemma keep_iff (c : Criteria) (r : Row) :
  keep c r = true <-> age_ok c r /\ job_ok c r /\ month_ok c r.
Proof.
  unfold keep, age_ok, job_ok, month_ok.
  rewrite !andb_true_iff, !Z.leb_le, mem_In.
  destruct (selected_months c) as [months|].
  - rewrite mem_In. tauto.
  - intuition.
Qed.

(** The view in closed form, when the indexed columns exist. *)
Lemma filtered_rows (df : DataFrame) (c : Criteria) :
  indexable df c = true ->
  filtered df c = Ok (mkFrame (columns df) (filter (keep c) (rows df))).
Proof.
  unfold indexable, filtered, getitem, keep.
  rewrite !andb_true_iff. intros [[Hage Hjob] Hmonth].
  rewrite Hage, Hjob. simpl.
  unfold ge, le, isin. rewrite !map_map, !mask_and_map.
  destruct (selected_months c) as [months|]; simpl.
  - unfold has_column in *. simpl. rewrite Hmonth. simpl.
    unfold loc. simpl. rewrite map_map, !select_map, filter_twice.
    reflexivity.
  - unfold loc. simpl. rewrite select_map. f_equal. f_equal. apply filter_ext.
    intros r. now rewrite andb_true_r.
Qed.

(** Conversely the filter block returns only when those columns exist. *)
Lemma filtered_indexable (df : DataFrame) (c : Criteria) (view : DataFrame) :
  filtered df c = Ok view -> indexable df c = true.
Proof.
  unfold indexable, filtered, getitem.
  destruct (has_column df "age"); simpl; [|discriminate].
  destruct (has_column df "job"); simpl; [|discriminate].
  destruct (selected_months c) as [months|]; [|reflexivity].
  unfold has_column at 1. simpl. fold (has_column df "month").
  destruct (has_column df "month"); simpl; [reflexivity | discriminate].
Qed.

Lemma filtered_view (df : DataFrame) (c : Criteria) (view : DataFrame) :
  filtered df c = Ok view ->
  view = mkFrame (columns df) (filter (keep c) (rows df)).
Proof.
  intros H. pose proof (filtered_indexable _ _ _ H) as Hi.
  rewrite (filtered_rows _ _ Hi) in H. now inversion H.
Qed.

Lemma filtered_has_column (df : DataFrame) (c : Criteria) (view : DataFrame)
      (name : string) :
  filtered df c = Ok view -> has_column view name = has_column df name.
Proof.
  intros H. now rewrite (filtered_view _ _ _ H).
Qed.

Lemma filtered_has_age_job (df : DataFrame) (c : Criteria) (view : DataFrame) :
  filtered df c = Ok view ->
  has_column view "age" = true /\ has_column view "job" = true.
Proof.
  intros H. rewrite !(filtered_has_column _ _ _ _ H).
  apply filtered_indexable in H. unfold indexable in H.
  rewrite !andb_true_iff in H. tauto.
Qed.

(* ================================================================== *)
(** ** Sorting kernels *)
(* ================================================================== *)

Lemma insert_desc_perm (x : string * nat) (l : list (string * nat)) :
  Permutation (insert_desc x l) (x :: l).
Proof.
  induction l as [|h t IH]; simpl; [reflexivity|].
  destruct (snd h <=? snd x); [reflexivity|].
  rewrite IH. apply perm_swap.
Qed.

Lemma insert_desc_sorted (x : string * nat) (l : list (string * nat)) :
  StronglySorted count_ge l -> StronglySorted count_ge (insert_desc x l).
Proof.
  induction 1 as [|h t Hs IH Hall]; simpl.
  - repeat constructor.
  - destruct (Nat.leb_spec (snd h) (snd x)) as [Hle|Hlt].
    + constructor; [now constructor|].
      constructor; [exact Hle|].
      eapply Forall_impl; [|exact Hall].
      unfold count_ge. intros a Ha. lia.
    + constructor; [exact IH|].
      apply (Permutation_Forall (Permutation_sym (insert_desc_perm x t))).
      constructor; [unfold count_ge; lia | exact Hall].
Qed.

Lemma stable_sort_desc_perm (l : list (string * nat)) :
  Permutation (stable_sort_desc l) l.
Proof.
  induction l as [|x l IH]; simpl; [reflexivity|].
  rewrite insert_desc_perm. now constructor.
Qed.

Lemma stable_sort_desc_sorted (l : list (string * nat)) :
  StronglySorted count_ge (stable_sort_desc l).
Proof.
  induction l as [|x l IH]; simpl; [constructor|].
  now apply insert_desc_sorted.
Qed.

(** A series that is already in descending order is left as it is. *)
Lemma stable_sort_desc_fixed (l : list (string * nat)) :
  StronglySorted count_ge l -> stable_sort_desc l = l.
Proof.
  induction 1 as [|h t Hs IH Hall]; simpl; [reflexivity|].
  rewrite IH. destruct t as [|h' t']; simpl; [reflexivity|].
  inversion Hall as [|? ? Hh' _]; subst. unfold count_ge in Hh'.
  now apply Nat.leb_le in Hh' as ->.
Qed.

#[export] Instance stable_kind : SortKind := {|
  sort_desc := stable_sort_desc;
  sort_desc_perm := stable_sort_desc_perm;
  sort_desc_sorted := stable_sort_desc_sorted
|}.

Section AnyKernel.

Context `{SortKind}.

Lemma sort_desc_nil : sort_desc [] = [].
Proof. apply Permutation_nil, Permutation_sym, sort_desc_perm. Qed.

Lemma value_counts_nil : value_counts [] = [].
Proof. unfold value_counts, counts. simpl. apply sort_desc_nil. Qed.

End AnyKernel.

(* ================================================================== *)
(** ** Occurrence counts and the mode *)
(* ================================================================== *)

Lemma counts_snoc (s : Series string) (v : string) :
  counts (s ++ [v]) = bump v (counts s).
Proof. unfold counts. now rewrite fold_left_app. Qed.

Lemma get_bump (k v : string) (acc : list (string * nat)) :
  get k (bump v acc) =
  if String.eqb v k
  then Some (S (match get v acc with Some n => n | None => 0 end))
  else get k acc.
Proof.
  induction acc as [|[k' n] t IH]; simpl.
  - reflexivity.
  - destruct (String.eqb_spec k' v) as [->|Hne]; simpl.
    + now destruct (String.eqb_spec v k).
    + rewrite IH. destruct (String.eqb_spec k' k) as [->|Hne'].
      * destruct (String.eqb_spec v k); [congruence | reflexivity].
      * reflexivity.
Qed.

Lemma bump_keys (v : string) (acc : list (string * nat)) :
  map fst (bump v acc) =
  if mem v (map fst acc) then map fst acc else map fst acc ++ [v].
Proof.
  unfold mem. induction acc as [|[k n] t IH]; simpl; [reflexivity|].
  rewrite (String.eqb_sym v k).
  destruct (String.eqb k v); simpl; [reflexivity|].
  rewrite IH. now destruct (existsb (String.eqb v) (map fst t)).
Qed.

Lemma counts_keys_NoDup (s : Series string) : NoDup (map fst (counts s)).
Proof.
  induction s as [|v s IH] using rev_ind; [constructor|].
  rewrite counts_snoc, bump_keys.
  destruct (mem v (map fst (counts s))) eqn:Hmem; [exact IH|].
  apply NoDup_app; [exact IH | repeat constructor; intros [] |].
  intros x Hin [<-|[]]. apply mem_In in Hin. congruence.
Qed.

(** The entry of a key is its number of occurrences; absent keys have none. *)
Lemma get_counts (s : Series string) (k : string) :
  get k (counts s) =
  match occurrences s k with 0 => None | S n => Some (S n) end.
Proof.
  unfold occurrences.
  induction s as [|v s IH] using rev_ind; [reflexivity|].
  rewrite counts_snoc, get_bump, count_occ_app. simpl.
  destruct (String.eqb_spec v k) as [->|Hne].
  - rewrite IH. destruct (string_dec k k) as [_|]; [|congruence].
    rewrite Nat.add_1_r. now destruct (count_occ string_dec s k).
  - rewrite IH. destruct (string_dec v k); [congruence|].
    now rewrite Nat.add_0_r.
Qed.

Lemma In_get (k : string) (n : nat) (l : list (string * nat)) :
  NoDup (map fst l) -> (In (k, n) l <-> get k l = Some n).
Proof.
  induction l as [|[k' n'] t IH]; simpl; intros Hnd.
  - split; [intros [] | discriminate].
  - inversion Hnd as [|? ? Hnotin Hnd']; subst.
    destruct (String.eqb_spec k' k) as [->|Hne].
    + split.
      * intros [Heq|Hin]; [now inversion Heq|].
        exfalso. apply Hnotin. now apply (in_map fst) in Hin.
      * intros Heq. left. now inversion Heq.
    + rewrite <- (IH Hnd'). split; [|now right].
      intros [Heq|Hin]; [inversion Heq; congruence | exact Hin].
Qed.

Lemma In_counts (s : Series string) (k : string) (n : nat) :
  In (k, n) (counts s) <-> n = occurrences s k /\ 0 < n.
Proof.
  rewrite (In_get k n (counts s) (counts_keys_NoDup s)), get_counts.
  destruct (occurrences s k); split.
  - discriminate.
  - intros [-> Hlt]. lia.
  - intros Heq. inversion Heq. lia.
  - intros [-> _]. reflexivity.
Qed.

Lemma counts_nonempty (s : Series string) : s <> [] -> counts s <> [].
Proof.
  destruct s as [|v s]; [congruence|]. intros _ Hnil.
  assert (Hin : In (v, occurrences (v :: s) v) (counts (v :: s))).
  { apply In_counts. split; [reflexivity|].
    unfold occurrences. simpl. destruct (string_dec v v); [lia | congruence]. }
  rewrite Hnil in Hin. destruct Hin.
Qed.

Lemma max_count_ge (cs : list (string * nat)) (kc : string * nat) :
  In kc cs -> snd kc <= max_count cs.
Proof.
  induction cs as [|h t IH]; simpl; [intros []|].
  intros [->|Hin]; [lia|]. specialize (IH Hin). lia.
Qed.

Lemma max_count_attained (cs : list (string * nat)) :
  cs <> [] -> exists kc, In kc cs /\ snd kc = max_count cs.
Proof.
  induction cs as [|h t IH]; [congruence|]. intros _. simpl.
  destruct t as [|h' t'].
  - exists h. simpl. split; [now left | lia].
  - destruct IH as [kc [Hin Hmax]]; [discriminate|].
    destruct (Nat.le_ge_cases (snd h) (max_count (h' :: t'))) as [Hle|Hge].
    + exists kc. split; [now right | lia].
    + exists h. split; [now left | lia].
Qed.

(** [String.leb] is the reflexive closure of the strict order on strings. *)
Lemma string_leb_iff (a b : string) :
  String.leb a b = true <-> a = b \/ String_as_OT.lt a b.
Proof.
  unfold String.leb.
  destruct (String.compare a b) eqn:Hcmp.
  - apply String_as_OT.cmp_eq in Hcmp. tauto.
  - apply String_as_OT.cmp_lt in Hcmp. tauto.
  - split; [discriminate|]. intros [->|Hlt].
    + assert (Heq : String.compare b b = Eq) by now apply String_as_OT.cmp_eq.
      congruence.
    + apply String_as_OT.cmp_lt in Hlt. unfold String_as_OT.cmp in Hlt.
      congruence.
Qed.

Lemma string_leb_trans (a b c : string) :
  String.leb a b = true -> String.leb b c = true -> String.leb a c = true.
Proof.
  rewrite !string_leb_iff.
  intros [->|Hab] [->|Hbc]; auto.
  right. eapply String_as_OT.lt_trans; eassumption.
Qed.

Lemma mode_In (s : Series string) (j : string) :
  In j (mode s) <->
  0 < occurrences s j /\ occurrences s j = max_count (counts s).
Proof.
  unfold mode.
  rewrite <- (Permutation_in' (eq_refl j) (StringSort.Permuted_sort _)).
  rewrite in_map_iff. split.
  - intros [[k n] [Hfst Hin]]. simpl in Hfst. subst k.
    apply filter_In in Hin. destruct Hin as [Hin Hmax].
    apply In_counts in Hin. simpl in Hmax. apply Nat.eqb_eq in Hmax.
    destruct Hin as [-> Hpos]. auto.
  - intros [Hpos Hmax]. exists (j, occurrences s j). split; [reflexivity|].
    apply filter_In. split.
    + apply In_counts. auto.
    + simpl. now apply Nat.eqb_eq.
Qed.

Lemma mode_nonempty (s : Series string) : s <> [] -> mode s <> [].
Proof.
  intros Hs Hnil.
  destruct (max_count_attained (counts s) (counts_nonempty s Hs))
    as [[k n] [Hin Hmax]].
  simpl in Hmax. apply In_counts in Hin. destruct Hin as [-> Hpos].
  assert (Hk : In k (mode s)) by (apply mode_In; auto).
  rewrite Hnil in Hk. destruct Hk.
Qed.

(** The first entry of the mode is its least one. *)
Lemma mode_head_least (s : Series string) (j : string) (rest : list string) :
  mode s = j :: rest ->
  forall j', In j' (mode s) -> String.leb j j' = true.
Proof.
  intros Hmode j' Hin.
  assert (Hsorted : StronglySorted (fun a b => is_true (String.leb a b)) (mode s)).
  { unfold mode. apply StringSort.StronglySorted_sort.
    intros a b c. apply string_leb_trans. }
  rewrite Hmode in Hsorted, Hin.
  destruct Hin as [<-|Hin].
  - apply string_leb_iff. now left.
  - inversion Hsorted as [|? ? _ Hall]; subst.
    rewrite Forall_forall in Hall. now apply Hall.
Qed.

(* ================================================================== *)
(** ** The filter engine *)
(* ================================================================== *)

Lemma keep_false (c : Criteria) (r : Row) :
  keep c r = false -> ~ age_ok c r \/ ~ job_ok c r \/ ~ month_ok c r.
Proof.
  unfold keep, age_ok, job_ok, month_ok. rewrite !andb_false_iff.
  intros [[[Hlo|Hhi]|Hjob]|Hmonth].
  - left. apply Z.leb_gt in Hlo. lia.
  - left. apply Z.leb_gt in Hhi. lia.
  - right. left. rewrite <- mem_In. congruence.
  - right. right. destruct (selected_months c) as [months|]; [|discriminate].
    rewrite <- mem_In. congruence.
Qed.

(** C1.  A record of the data set is in the filtered view exactly when its
    age lies in the inclusive age range, its job is one of the selected
    jobs, and either no month selection exists or its month is one of the
    selected months.  With no job selected the view has no rows, and the
    filter returns it rather than raising. *)
Theorem filtered_membership (df : DataFrame) (c : Criteria) :
  indexable df c = true ->
  exists view,
    filtered df c = Ok view /\
    (forall r, In r (rows view) <->
               In r (rows df) /\ age_ok c r /\ job_ok c r /\ month_ok c r) /\
    (selected_jobs c = [] -> rows view = []).
Proof.
  intros Hi. eexists. split; [apply filtered_rows, Hi|]. simpl. split.
  - intros r. rewrite filter_In, keep_iff. reflexivity.
  - intros Hjobs. induction (rows df) as [|r rs IH]; simpl; [reflexivity|].
    unfold keep at 1. rewrite Hjobs. simpl. rewrite andb_false_r. simpl.
    exact IH.
Qed.

Lemma filtered_membership_witness :
  exists view,
    filtered Sample.campaign Sample.summer = Ok view /\
    (forall r, In r (rows view) <->
               In r (rows Sample.campaign) /\ age_ok Sample.summer r /\
               job_ok Sample.summer r /\ month_ok Sample.summer r) /\
    (selected_jobs Sample.summer = [] -> rows view = []).
Proof.
  apply (filtered_membership Sample.campaign Sample.summer). reflexivity.
Defined.

(** C9.  The filtered view is drawn from the data set and is no longer than
    it; each of its records meets the three predicates, and each record of
    the data set that it leaves out fails one of them. *)
Theorem filtered_subset (df : DataFrame) (c : Criteria) :
  indexable df c = true ->
  exists view,
    filtered df c = Ok view /\
    incl (rows view) (rows df) /\
    len view <= len df /\
    (forall r, In r (rows view) -> age_ok c r /\ job_ok c r /\ month_ok c r) /\
    (forall r, In r (rows df) -> ~ In r (rows view) ->
               ~ age_ok c r \/ ~ job_ok c r \/ ~ month_ok c r).
Proof.
  intros Hi. eexists. split; [apply filtered_rows, Hi|].
  unfold len. simpl.
  split; [apply incl_filter|]. split; [apply filter_length_le|]. split.
  - intros r Hin. apply filter_In in Hin. now apply keep_iff.
  - intros r Hin Hout. apply keep_false.
    destruct (keep c r) eqn:Hkeep; [|reflexivity].
    exfalso. apply Hout, filter_In. auto.
Qed.

Lemma filtered_subset_witness :
  exists view,
    filtered Sample.campaign Sample.summer = Ok view /\
    incl (rows view) (rows Sample.campaign) /\
    len view <= len Sample.campaign /\
    (forall r, In r (rows view) ->
               age_ok Sample.summer r /\ job_ok Sample.summer r /\
               month_ok Sample.summer r) /\
    (forall r, In r (rows Sample.campaign) -> ~ In r (rows view) ->
               ~ age_ok Sample.summer r \/ ~ job_ok Sample.summer r \/
               ~ month_ok Sample.summer r).
Proof.
  apply (filtered_subset Sample.campaign Sample.summer). reflexivity.
Defined.

(** The criteria the sidebar builds are indexable as soon as the data set has
    the two columns the script reads unconditionally. *)
Lemma sidebar_indexable (df : DataFrame) (ages : Z * Z)
      (jobs chosen : list string) :
  has_column df "age" = true -> has_column df "job" = true ->
  indexable df (mkCriteria ages jobs (month_selection df chosen)) = true.
Proof.
  intros Hage Hjob. unfold indexable, month_selection. rewrite Hage, Hjob.
  simpl. destruct (has_column df "month") eqn:Hmonth; simpl; auto.
Qed.

(** Filtering a view again with the same criteria changes nothing. *)
Lemma filtered_again (df : DataFrame) (c : Criteria) (view : DataFrame) :
  filtered df c = Ok view -> filtered view c = Ok view.
Proof.
  intros H. pose proof (filtered_indexable _ _ _ H) as Hi.
  rewrite (filtered_view _ _ _ H). rewrite filtered_rows by exact Hi.
  simpl. f_equal. f_equal.
  rewrite filter_twice. apply filter_ext. intros r. apply andb_diag.
Qed.

(* ================================================================== *)
(** ** The insight summary *)
(* ================================================================== *)

Lemma avg_age_empty (view : DataFrame) :
  has_column view "age" = true -> rows view = [] -> avg_age view = Ok NaN.
Proof.
  intros Hage Hrows. unfold avg_age, getitem. now rewrite Hage, Hrows.
Qed.

Lemma avg_age_returns (view : DataFrame) :
  has_column view "age" = true -> exists a, avg_age view = Ok a.
Proof.
  intros Hage. unfold avg_age, getitem. rewrite Hage. simpl. eauto.
Qed.

Lemma empty_no_rows (view : DataFrame) : rows view = [] -> empty view = true.
Proof. unfold empty. intros ->. now destruct (columns view). Qed.

Lemma nonempty_rows (view : DataFrame) : empty view = false -> rows view <> [].
Proof.
  intros He Hrows. apply empty_no_rows in Hrows. congruence.
Qed.

Lemma top_job_empty (view : DataFrame) :
  empty view = true -> top_job view = Ok "N/A"%string.
Proof. intros He. unfold top_job. now rewrite He. Qed.

(** On a view with rows, [mode()[0]] exists and is the least job of
    maximal count. *)
Lemma top_job_nonempty (view : DataFrame) :
  has_column view "job" = true -> empty view = false ->
  exists j rest, mode (map job (rows view)) = j :: rest /\ top_job view = Ok j.
Proof.
  intros Hjob He. unfold top_job, getitem. rewrite He, Hjob. simpl.
  destruct (mode (map job (rows view))) as [|j rest] eqn:Hmode.
  - exfalso. apply (mode_nonempty (map job (rows view))); [|exact Hmode].
    intros Hnil. apply map_eq_nil in Hnil. now apply nonempty_rows in He.
  - now exists j, rest.
Qed.

Lemma top_job_returns (view : DataFrame) :
  has_column view "job" = true -> exists j, top_job view = Ok j.
Proof.
  intros Hjob. destruct (empty view) eqn:He.
  - eexists. now apply top_job_empty.
  - destruct (top_job_nonempty view Hjob He) as [j [rest [_ Htop]]]. eauto.
Qed.

Section Summary.

Context `{SortKind}.

Lemma subscription_rate_unlabelled (view : DataFrame) :
  has_column view "y" = false -> subscription_rate view = Ok PyNone.
Proof. intros Hy. unfold subscription_rate. now rewrite Hy. Qed.

Lemma subscription_rate_no_rows (view : DataFrame) :
  has_column view "y" = true -> rows view = [] ->
  subscription_rate view = Ok (PyInt 0).
Proof.
  intros Hy Hrows. unfold subscription_rate, getitem. rewrite Hy, Hrows.
  simpl. unfold value_counts_normalized. now rewrite value_counts_nil.
Qed.

Lemma subscription_rate_returns (view : DataFrame) :
  exists s, subscription_rate view = Ok s.
Proof.
  unfold subscription_rate, getitem.
  destruct (has_column view "y"); simpl; eauto.
Qed.

End Summary.

(** The scenario of the specification: all three records selected, average
    age 40, top job admin, and a rate that stands for 200/3 percent (the
    float the code prints as 66.67). *)
Example scenario_insight :
  filtered Sample.scenario Sample.everyone = Ok Sample.scenario /\
  insight (H := stable_kind) Sample.scenario
  = Ok (mkInsight (Fin 40) "admin" (PyFloat (Fin (200 # 3)))).
Proof. split; reflexivity. Qed.

(** C6.  On a filtered view without rows the summary is computed without an
    exception: the average age is not-a-number and the top job is the
    string N/A. *)
Theorem insight_empty_view `{SortKind} (df : DataFrame) (c : Criteria)
        (view : DataFrame) :
  filtered df c = Ok view ->
  rows view = [] ->
  avg_age view = Ok NaN /\
  top_job view = Ok "N/A"%string /\
  exists s, insight view = Ok (mkInsight NaN "N/A" s).
Proof.
  intros Hf Hrows.
  destruct (filtered_has_age_job _ _ _ Hf) as [Hage _].
  pose proof (avg_age_empty view Hage Hrows) as Havg.
  pose proof (top_job_empty view (empty_no_rows view Hrows)) as Htop.
  destruct (subscription_rate_returns view) as [s Hs].
  split; [exact Havg|]. split; [exact Htop|].
  exists s. unfold insight. now rewrite Havg, Htop, Hs.
Qed.

Lemma insight_empty_view_witness :
  avg_age Sample.scenario_nobody = Ok NaN /\
  top_job Sample.scenario_nobody = Ok "N/A"%string /\
  exists s, insight (H := stable_kind) Sample.scenario_nobody
            = Ok (mkInsight NaN "N/A" s).
Proof.
  apply (insight_empty_view (H := stable_kind) Sample.scenario Sample.nobody);
    reflexivity.
Defined.

(** C3, as the code has it.  When the data set has the label column and the
    filtered view has no rows, the subscription rate is computed without an
    exception and is the integer 0, the default of [get("yes", 0)] times
    100. *)
Theorem subscription_rate_empty_view `{SortKind} (df : DataFrame)
        (c : Criteria) (view : DataFrame) :
  has_column df "y" = true ->
  filtered df c = Ok view ->
  rows view = [] ->
  subscription_rate view = Ok (PyInt 0).
Proof.
  intros Hy Hf Hrows. apply subscription_rate_no_rows; [|exact Hrows].
  now rewrite (filtered_has_column _ _ _ "y"%string Hf).
Qed.

Lemma subscription_rate_empty_view_witness :
  subscription_rate (H := stable_kind) Sample.scenario_nobody = Ok (PyInt 0).
Proof.
  apply (subscription_rate_empty_view (H := stable_kind)
           Sample.scenario Sample.nobody); reflexivity.
Defined.

(** C3, counterexample.  The scenario data has the label column; with no job
    selected the view is empty, and the rate that is computed is neither
    [None] nor not-a-number. *)
Lemma subscription_rate_empty_view_not_sentinel :
  has_column Sample.scenario "y" = true /\
  filtered Sample.scenario Sample.nobody = Ok Sample.scenario_nobody /\
  rows Sample.scenario_nobody = [] /\
  ~ (exists v, subscription_rate (H := stable_kind) Sample.scenario_nobody = Ok v
               /\ is_sentinel v = true).
Proof.
  repeat split. intros [v [Hv Hs]]. vm_compute in Hv.
  inversion Hv; subst. discriminate.
Qed.

(** C5.  When the data set has no label column the subscription rate is
    [None], for any criteria; formatting it with [.2f] in the insight block
    then raises [TypeError], so the block is not rendered. *)
Theorem st_info_unlabelled `{SortKind} (df : DataFrame) (c : Criteria)
        (view : DataFrame) :
  has_column df "y" = false ->
  filtered df c = Ok view ->
  subscription_rate view = Ok PyNone /\
  st_info view = Raise TypeError.
Proof.
  intros Hy Hf.
  destruct (filtered_has_age_job _ _ _ Hf) as [Hage Hjob].
  assert (Hs : subscription_rate view = Ok PyNone).
  { apply subscription_rate_unlabelled.
    now rewrite (filtered_has_column _ _ _ "y"%string Hf). }
  split; [exact Hs|].
  destruct (avg_age_returns view Hage) as [a Ha].
  destruct (top_job_returns view Hjob) as [j Hj].
  unfold st_info, insight. rewrite Ha, Hj, Hs. reflexivity.
Qed.

Lemma st_info_unlabelled_witness :
  subscription_rate (H := stable_kind) Sample.unlabelled = Ok PyNone /\
  st_info (H := stable_kind) Sample.unlabelled = Raise TypeError.
Proof.
  apply (st_info_unlabelled (H := stable_kind)
           Sample.unlabelled Sample.everyone); reflexivity.
Defined.

(** C10.  On a filtered view with rows the top job is a job of the view of
    maximal frequency, and among the jobs of that frequency it is the
    lexicographically least. *)
Theorem top_job_least_of_most_frequent (df : DataFrame) (c : Criteria)
        (view : DataFrame) :
  filtered df c = Ok view ->
  empty view = false ->
  exists j,
    top_job view = Ok j /\
    In j (map job (rows view)) /\
    (forall j', occurrences (map job (rows view)) j'
                <= occurrences (map job (rows view)) j) /\
    (forall j', occurrences (map job (rows view)) j'
                = occurrences (map job (rows view)) j ->
                String.leb j j' = true).
Proof.
  intros Hf He.
  destruct (filtered_has_age_job _ _ _ Hf) as [_ Hjob].
  destruct (top_job_nonempty view Hjob He) as [j [rest [Hmode Htop]]].
  set (jobs := map job (rows view)) in *.
  assert (Hj : In j (mode jobs)) by (rewrite Hmode; now left).
  apply mode_In in Hj. destruct Hj as [Hpos Hmax].
  exists j. split; [exact Htop|]. split; [|split].
  - unfold occurrences in Hpos. now apply (count_occ_In string_dec).
  - intros j'. rewrite Hmax.
    destruct (occurrences jobs j') as [|n] eqn:Hocc; [lia|].
    rewrite <- Hocc.
    apply (max_count_ge (counts jobs) (j', occurrences jobs j')).
    apply In_counts. split; [reflexivity | lia].
  - intros j' Heq. apply (mode_head_least jobs j rest Hmode).
    apply mode_In. split; [lia | congruence].
Qed.

Lemma top_job_least_of_most_frequent_witness :
  exists j,
    top_job Sample.campaign = Ok j /\
    In j (map job (rows Sample.campaign)) /\
    (forall j', occurrences (map job (rows Sample.campaign)) j'
                <= occurrences (map job (rows Sample.campaign)) j) /\
    (forall j', occurrences (map job (rows Sample.campaign)) j'
                = occurrences (map job (rows Sample.campaign)) j ->
                String.leb j j' = true).
Proof.
  apply (top_job_least_of_most_frequent Sample.campaign Sample.everyone);
    reflexivity.
Defined.

(* ================================================================== *)
(** ** Job counts *)
(* ================================================================== *)

Section JobCounts.

Context `{SortKind}.

(** Without the second sort the series is [value_counts] as it comes: by
    descending count. *)
Lemma job_counts_alphabetical_by_count (view : DataFrame)
      (jc : list (string * nat)) :
  job_counts view Alphabetical = Ok jc -> StronglySorted count_ge jc.
Proof.
  unfold job_counts, getitem.
  destruct (has_column view "job"); simpl; [|discriminate].
  intros Heq. inversion Heq. apply sort_desc_sorted.
Qed.

(** A kernel cannot reorder two entries of different counts. *)
Lemma sort_desc_pair (a b : string * nat) :
  snd b < snd a -> sort_desc [a; b] = [a; b].
Proof.
  intros Hlt.
  pose proof (sort_desc_sorted [a; b]) as Hs.
  destruct (Permutation_length_2_inv (Permutation_sym (sort_desc_perm [a; b])))
    as [Heq|Heq]; [exact Heq|].
  rewrite Heq in Hs. inversion Hs as [|? ? _ Hall]; subst.
  inversion Hall as [|? ? Hab _]; subst. unfold count_ge in Hab. lia.
Qed.

End JobCounts.

(** C2.  Two technicians and one admin, all selected: under Alphabetical
    the series lists technician before admin, for every kernel, and so is
    not in lexicographic order. *)
Theorem job_counts_alphabetical_unsorted `{SortKind} :
  filtered Sample.technicians Sample.everyone = Ok Sample.technicians /\
  job_counts Sample.technicians Alphabetical
  = Ok [("technician"%string, 2); ("admin"%string, 1)] /\
  ~ alphabetical [("technician"%string, 2); ("admin"%string, 1)].
Proof.
  split; [reflexivity|]. split.
  - unfold job_counts, getitem. simpl. f_equal.
    unfold value_counts. apply sort_desc_pair. simpl. lia.
  - intros Hs. inversion Hs as [|? ? _ Hall]; subst.
    inversion Hall as [|? ? Hle _]; subst. discriminate Hle.
Qed.

(* ================================================================== *)
(** ** The correlation tab *)
(* ================================================================== *)

Lemma empty_iff (df : DataFrame) :
  empty df = true <-> columns df = [] \/ rows df = [].
Proof.
  unfold empty. destruct (columns df), (rows df); split; auto.
  - discriminate.
  - intros [Hc|Hr]; discriminate.
Qed.

(** C4, as the code has it.  The correlation tab shows the warning exactly
    when the view has no numeric column or no row; in every other case it
    shows the heat map labelled by the numeric columns. *)
Theorem tab_corr_warning (view : DataFrame) :
  (is_warning (tab_corr view) = true <->
   columns (numeric_cols view) = [] \/ rows view = []) /\
  (is_warning (tab_corr view) = false ->
   tab_corr view = Heatmap (map fst (columns (numeric_cols view)))).
Proof.
  unfold tab_corr. split.
  - rewrite <- (empty_iff (numeric_cols view)).
    destruct (empty (numeric_cols view)); simpl; split; congruence.
  - destruct (empty (numeric_cols view)); simpl; congruence.
Qed.

(** C4, counterexample.  The scenario view with no job selected has the
    numeric column [age] and no rows, and the tab shows the warning. *)
Lemma tab_corr_warning_with_numeric_column :
  filtered Sample.scenario Sample.nobody = Ok Sample.scenario_nobody /\
  columns (numeric_cols Sample.scenario_nobody) = [("age"%string, int64)] /\
  rows Sample.scenario_nobody = [] /\
  is_warning (tab_corr Sample.scenario_nobody) = true /\
  ~ (is_warning (tab_corr Sample.scenario_nobody) = true <->
     columns (numeric_cols Sample.scenario_nobody) = []).
Proof.
  repeat split. intros [Hw _]. specialize (Hw eq_refl). discriminate Hw.
Qed.

(* ================================================================== *)
(** ** The sidebar *)
(* ================================================================== *)

Lemma fold_min_le (a : Z) (t : list Z) :
  forall x, In x (a :: t) -> (fold_right Z.min a t <= x)%Z.
Proof.
  induction t as [|b t IH]; simpl.
  - intros x [<-|[]]. lia.
  - intros x [<-|[<-|Hin]].
    + specialize (IH a (or_introl eq_refl)). lia.
    + lia.
    + specialize (IH x (or_intror Hin)). lia.
Qed.

Lemma fold_max_ge (a : Z) (t : list Z) :
  forall x, In x (a :: t) -> (x <= fold_right Z.max a t)%Z.
Proof.
  induction t as [|b t IH]; simpl.
  - intros x [<-|[]]. lia.
  - intros x [<-|[<-|Hin]].
    + specialize (IH a (or_introl eq_refl)). lia.
    + lia.
    + specialize (IH x (or_intror Hin)). lia.
Qed.

Lemma fold_min_In (a : Z) (t : list Z) : In (fold_right Z.min a t) (a :: t).
Proof.
  induction t as [|b t IH]; simpl; [now left|].
  destruct (Z.min_spec b (fold_right Z.min a t)) as [[_ ->]|[_ ->]].
  - right. now left.
  - destruct IH as [Heq|Hin]; [now left | right; now right].
Qed.

Lemma fold_max_In (a : Z) (t : list Z) : In (fold_right Z.max a t) (a :: t).
Proof.
  induction t as [|b t IH]; simpl; [now left|].
  destruct (Z.max_spec b (fold_right Z.max a t)) as [[_ ->]|[_ ->]].
  - destruct IH as [Heq|Hin]; [now left | right; now right].
  - right. now left.
Qed.

Lemma unique_snoc (s : Series string) (v : string) :
  unique (s ++ [v]) = if mem v (unique s) then unique s else unique s ++ [v].
Proof. unfold unique. now rewrite fold_left_app. Qed.

Lemma unique_In (s : Series string) (x : string) : In x (unique s) <-> In x s.
Proof.
  induction s as [|v s IH] using rev_ind; [reflexivity|].
  rewrite unique_snoc, in_app_iff. simpl.
  destruct (mem v (unique s)) eqn:Hmem.
  - apply mem_In in Hmem. split.
    + intros Hin. left. now apply IH.
    + intros [Hin|[<-|[]]]; [now apply IH | exact Hmem].
  - rewrite in_app_iff, IH. simpl. tauto.
Qed.

Lemma unique_NoDup (s : Series string) : NoDup (unique s).
Proof.
  induction s as [|v s IH] using rev_ind; [constructor|].
  rewrite unique_snoc. destruct (mem v (unique s)) eqn:Hmem; [exact IH|].
  apply NoDup_app; [exact IH | repeat constructor; intros [] |].
  intros x Hin [<-|[]]. apply mem_In in Hin. congruence.
Qed.

(** What [sorted(s.unique().tolist())] is: ascending, without repetition,
    and with the members of the series. *)
Lemma sorted_unique_spec (s : Series string) :
  StronglySorted (fun a b => String.leb a b = true) (sorted (unique s)) /\
  NoDup (sorted (unique s)) /\
  (forall x, In x (sorted (unique s)) <-> In x s).
Proof.
  unfold sorted. split; [|split].
  - apply StringSort.StronglySorted_sort.
    intros a b c. apply string_leb_trans.
  - apply (Permutation_NoDup (StringSort.Permuted_sort _)), unique_NoDup.
  - intros x. split; intros Hin.
    + apply unique_In.
      eapply Permutation_in; [|exact Hin].
      apply Permutation_sym, StringSort.Permuted_sort.
    + eapply Permutation_in; [apply StringSort.Permuted_sort|].
      now apply unique_In.
Qed.

(** The options in closed form, on a data set with records. *)
Lemma sidebar_options_rows (df : DataFrame) (r : Row) (rs : list Row) :
  has_column df "age" = true -> has_column df "job" = true ->
  rows df = r :: rs ->
  sidebar_options df =
  Ok (mkOptions (fold_right Z.min (age r) (map age rs))
                (fold_right Z.max (age r) (map age rs))
                (sorted (unique (map job (rows df))))
                (if has_column df "month"
                 then Some (sorted (unique (map month (rows df))))
                 else None)).
Proof.
  destruct df as [cols rws]. simpl. intros Hage Hjob ->.
  unfold sidebar_options, getitem. rewrite Hage, Hjob. simpl.
  now destruct (has_column (mkFrame cols (r :: rs)) "month").
Qed.

(** X1.  On a data set that has the age column and no records, reading the
    slider bounds raises [ValueError]: [min()] is nan and [int] rejects
    it. *)
Theorem sidebar_options_no_records (df : DataFrame) :
  has_column df "age" = true ->
  rows df = [] ->
  sidebar_options df = Raise ValueError /\
  default_criteria df = Raise ValueError.
Proof.
  intros Hage Hrows. unfold default_criteria, sidebar_options, getitem.
  now rewrite Hage, Hrows.
Qed.

Lemma sidebar_options_no_records_witness :
  sidebar_options Sample.no_records = Raise ValueError /\
  default_criteria Sample.no_records = Raise ValueError.
Proof.
  apply (sidebar_options_no_records Sample.no_records); reflexivity.
Defined.

(** X2.  On a data set with the age and job columns and at least one
    record, the slider bounds are computed, every record's age lies between
    them, and each bound is the age of some record. *)
Theorem sidebar_age_bounds (df : DataFrame) :
  has_column df "age" = true -> has_column df "job" = true ->
  rows df <> [] ->
  exists o,
    sidebar_options df = Ok o /\
    (forall r, In r (rows df) -> (min_age o <= age r <= max_age o)%Z) /\
    (exists r, In r (rows df) /\ age r = min_age o) /\
    (exists r, In r (rows df) /\ age r = max_age o).
Proof.
  intros Hage Hjob Hrows.
  destruct (rows df) as [|r rs] eqn:Hrs; [congruence|].
  eexists. split; [apply (sidebar_options_rows df r rs Hage Hjob Hrs)|].
  simpl. split; [|split].
  - intros x Hin.
    assert (Hx : In (age x) (age r :: map age rs))
      by apply (in_map age (r :: rs) x Hin).
    split; [now apply fold_min_le | now apply fold_max_ge].
  - pose proof (fold_min_In (age r) (map age rs)) as Hin.
    change (age r :: map age rs) with (map age (r :: rs)) in Hin.
    apply in_map_iff in Hin. destruct Hin as [x [Hx Hin]]. eauto.
  - pose proof (fold_max_In (age r) (map age rs)) as Hin.
    change (age r :: map age rs) with (map age (r :: rs)) in Hin.
    apply in_map_iff in Hin. destruct Hin as [x [Hx Hin]]. eauto.
Qed.

Lemma sidebar_age_bounds_witness :
  exists o,
    sidebar_options Sample.campaign = Ok o /\
    (forall r, In r (rows Sample.campaign) ->
               (min_age o <= age r <= max_age o)%Z) /\
    (exists r, In r (rows Sample.campaign) /\ age r = min_age o) /\
    (exists r, In r (rows Sample.campaign) /\ age r = max_age o).
Proof.
  apply (sidebar_age_bounds Sample.campaign); [reflexivity | reflexivity |].
  discriminate.
Defined.

(** X3.  The job options are in ascending order, without repetition, and
    are exactly the jobs that occur in the data set; the month options
    exist exactly when the data set has a month column and are then the
    months that occur, likewise ordered and without repetition. *)
Theorem sidebar_choice_options (df : DataFrame) (o : Options) :
  sidebar_options df = Ok o ->
  StronglySorted (fun a b => String.leb a b = true) (job_options o) /\
  NoDup (job_options o) /\
  (forall j, In j (job_options o) <-> In j (map job (rows df))) /\
  match month_options o with
  | None => has_column df "month" = false
  | Some ms =>
      has_column df "month" = true /\
      StronglySorted (fun a b => String.leb a b = true) ms /\
      NoDup ms /\
      (forall m, In m ms <-> In m (map month (rows df)))
  end.
Proof.
  unfold sidebar_options, getitem.
  destruct (has_column df "age"); simpl; [|discriminate].
  destruct (py_int (smin (map age (rows df)))) as [lo|]; simpl; [|discriminate].
  destruct (py_int (smax (map age (rows df)))) as [hi|]; simpl; [|discriminate].
  destruct (has_column df "job"); simpl; [|discriminate].
  destruct (sorted_unique_spec (map job (rows df))) as [Hs [Hn Hi]].
  destruct (has_column df "month"); simpl; intros Heq; inversion Heq; simpl.
  - repeat split; try assumption; try apply Hi;
      apply (sorted_unique_spec (map month (rows df))).
  - repeat split; try assumption; apply Hi.
Qed.

Lemma sidebar_choice_options_witness :
  let o := mkOptions 25 56 ["blue-collar"; "housemaid"; "services"]%string
                     (Some ["jul"; "jun"; "may"]%string) in
  StronglySorted (fun a b => String.leb a b = true) (job_options o) /\
  NoDup (job_options o) /\
  (forall j, In j (job_options o) <-> In j (map job (rows Sample.campaign))) /\
  match month_options o with
  | None => has_column Sample.campaign "month" = false
  | Some ms =>
      has_column Sample.campaign "month" = true /\
      StronglySorted (fun a b => String.leb a b = true) ms /\
      NoDup ms /\
      (forall m, In m ms <-> In m (map month (rows Sample.campaign)))
  end.
Proof.
  apply (sidebar_choice_options Sample.campaign). reflexivity.
Defined.

Lemma filter_all (A : Type) (p : A -> bool) (l : list A) :
  (forall x, In x l -> p x = true) -> filter p l = l.
Proof.
  induction l as [|x l IH]; simpl; intros Hall; [reflexivity|].
  rewrite (Hall x (or_introl eq_refl)). f_equal. apply IH.
  intros z Hz. apply Hall. now right.
Qed.

(** X4.  With every widget at its default (the full slider range, all job
    options and, where there is a month column, all month options) the
    filtered view is the whole data set. *)
Theorem default_criteria_select_all (df : DataFrame) :
  has_column df "age" = true -> has_column df "job" = true ->
  rows df <> [] ->
  exists c, default_criteria df = Ok c /\ filtered df c = Ok df.
Proof.
  intros Hage Hjob Hrows.
  destruct (rows df) as [|r rs] eqn:Hrs; [congruence|].
  unfold default_criteria.
  rewrite (sidebar_options_rows df r rs Hage Hjob Hrs). simpl.
  eexists. split; [reflexivity|].
  rewrite filtered_rows.
  - simpl. rewrite filter_all; [destruct df; simpl in *; congruence|].
    intros x Hin. apply keep_iff.
    unfold age_ok, job_ok, month_ok. simpl. split; [|split].
    + assert (Hx : In (age x) (age r :: map age rs)).
      { rewrite Hrs in Hin. apply (in_map age (r :: rs) x Hin). }
      split; [now apply fold_min_le | now apply fold_max_ge].
    + apply sorted_unique_spec. now apply in_map.
    + destruct (has_column df "month"); [|exact I].
      apply sorted_unique_spec. now apply in_map.
  - unfold indexable. simpl. rewrite Hage, Hjob. simpl.
    now destruct (has_column df "month") eqn:Hm.
Qed.

Lemma default_criteria_select_all_witness :
  exists c,
    default_criteria Sample.campaign = Ok c /\
    filtered Sample.campaign c = Ok Sample.campaign.
Proof.
  apply (default_criteria_select_all Sample.campaign);
    [reflexivity | reflexivity | discriminate].
Defined.

(** X5.  When the data set lacks the age or the job column, or lacks the
    month column while months are selected, the filter block raises
    [KeyError] and produces no view. *)
Theorem filtered_missing_column (df : DataFrame) (c : Criteria) :
  indexable df c = false ->
  filtered df c = Raise KeyError.
Proof.
  unfold indexable, filtered, getitem. intros Hi.
  destruct (has_column df "age"); simpl; [|reflexivity].
  destruct (has_column df "job"); simpl; [|reflexivity].
  simpl in Hi. destruct (selected_months c) as [months|]; [|discriminate].
  unfold has_column at 1. simpl. fold (has_column df "month").
  now rewrite Hi.
Qed.

Lemma filtered_missing_column_witness :
  filtered Sample.unlabelled Sample.summer = Raise KeyError.
Proof.
  apply (filtered_missing_column Sample.unlabelled Sample.summer).
  reflexivity.
Defined.

(** X6.  When the month selection is built as the sidebar builds it, a data
    set with the age and job columns is always filtered without an
    exception, whatever the widgets return. *)
Theorem filtered_sidebar_returns (df : DataFrame) (ages : Z * Z)
        (jobs chosen : list string) :
  has_column df "age" = true -> has_column df "job" = true ->
  exists view,
    filtered df (mkCriteria ages jobs (month_selection df chosen)) = Ok view /\
    (has_column df "month" = false ->
     forall other,
       filtered df (mkCriteria ages jobs (month_selection df other)) = Ok view).
Proof.
  intros Hage Hjob. eexists. split.
  - apply filtered_rows. now apply sidebar_indexable.
  - intros Hmonth other.
    rewrite filtered_rows by now apply sidebar_indexable.
    unfold month_selection. now rewrite Hmonth.
Qed.

Lemma filtered_sidebar_returns_witness :
  exists view,
    filtered Sample.unlabelled
             (mkCriteria Sample.all_ages ["admin"%string]
                         (month_selection Sample.unlabelled ["may"%string]))
    = Ok view /\
    (has_column Sample.unlabelled "month" = false ->
     forall other,
       filtered Sample.unlabelled
                (mkCriteria Sample.all_ages ["admin"%string]
                            (month_selection Sample.unlabelled other))
       = Ok view).
Proof.
  apply (filtered_sidebar_returns Sample.unlabelled); reflexivity.
Defined.

(** X7.  The filtered view has the columns of the data set, and its records
    are the records of the data set that pass the three tests, in the
    order of the data set and as often as they occur there. *)
Theorem filtered_keeps_order (df : DataFrame) (c : Criteria) :
  indexable df c = true ->
  exists view,
    filtered df c = Ok view /\
    columns view = columns df /\
    rows view = filter (keep c) (rows df).
Proof.
  intros Hi. eexists. split; [apply (filtered_rows df c Hi)|]. now split.
Qed.

Lemma filtered_keeps_order_witness :
  exists view,
    filtered Sample.campaign Sample.summer = Ok view /\
    columns view = columns Sample.campaign /\
    rows view = filter (keep Sample.summer) (rows Sample.campaign).
Proof.
  apply (filtered_keeps_order Sample.campaign Sample.summer). reflexivity.
Defined.

Lemma filter_length_mono (A : Type) (p q : A -> bool) (l : list A) :
  (forall x, p x = true -> q x = true) ->
  List.length (filter p l) <= List.length (filter q l).
Proof.
  intros Himp. induction l as [|x l IH]; simpl; [lia|].
  destruct (p x) eqn:Hp.
  - rewrite (Himp x Hp). simpl. lia.
  - destruct (q x); simpl; lia.
Qed.

Lemma narrower_keep (c1 c2 : Criteria) (r : Row) :
  narrower c1 c2 -> keep c1 r = true -> keep c2 r = true.
Proof.
  unfold narrower. intros [Hlo [Hhi [Hjobs Hmonths]]].
  rewrite !keep_iff. unfold age_ok, job_ok, month_ok.
  intros [Hage [Hjob Hmonth]]. split; [lia|]. split; [now apply Hjobs|].
  destruct (selected_months c2) as [m2|]; [|exact I].
  destruct (selected_months c1) as [m1|]; [now apply Hmonths | destruct Hmonths].
Qed.

(** X8.  Narrowing the criteria can only remove records: the view of the
    narrower criteria is contained in the view of the wider ones and is no
    longer. *)
Theorem filtered_monotone (df : DataFrame) (c1 c2 : Criteria) :
  indexable df c1 = true -> indexable df c2 = true ->
  narrower c1 c2 ->
  exists v1 v2,
    filtered df c1 = Ok v1 /\ filtered df c2 = Ok v2 /\
    incl (rows v1) (rows v2) /\ len v1 <= len v2.
Proof.
  intros H1 H2 Hn. do 2 eexists.
  split; [apply (filtered_rows df c1 H1)|].
  split; [apply (filtered_rows df c2 H2)|]. unfold len. simpl. split.
  - intros r Hin. apply filter_In in Hin. apply filter_In.
    split; [tauto|]. apply (narrower_keep c1 c2 r Hn). tauto.
  - apply filter_length_mono. intros r. now apply narrower_keep.
Qed.

Lemma filtered_monotone_witness :
  exists v1 v2,
    filtered Sample.campaign Sample.june = Ok v1 /\
    filtered Sample.campaign Sample.summer = Ok v2 /\
    incl (rows v1) (rows v2) /\ len v1 <= len v2.
Proof.
  apply (filtered_monotone Sample.campaign Sample.june Sample.summer);
    [reflexivity | reflexivity |].
  unfold narrower. simpl. repeat split; try lia;
    intros x [<-|[]]; simpl; auto.
Defined.

(** X9.  An age range whose lower end exceeds its upper end, or a month
    selection without months, leaves no record in the view. *)
Theorem filtered_degenerate (df : DataFrame) (c : Criteria) :
  indexable df c = true ->
  (snd (age_range c) < fst (age_range c))%Z \/ selected_months c = Some [] ->
  exists view, filtered df c = Ok view /\ rows view = [].
Proof.
  intros Hi Hdeg. eexists. split; [apply (filtered_rows df c Hi)|]. simpl.
  induction (rows df) as [|r rs IH]; simpl; [reflexivity|].
  assert (Hk : keep c r = false).
  { destruct (keep c r) eqn:Hk; [|reflexivity]. exfalso.
    apply keep_iff in Hk. unfold age_ok, month_ok in Hk.
    destruct Hk as [Hage [_ Hmonth]].
    destruct Hdeg as [Hlt|Hnone]; [lia|].
    rewrite Hnone in Hmonth. destruct Hmonth. }
  now rewrite Hk.
Qed.

Lemma filtered_degenerate_witness :
  exists view,
    filtered Sample.campaign
             (mkCriteria (60%Z, 20%Z) (selected_jobs Sample.summer)
                         (selected_months Sample.summer)) = Ok view /\
    rows view = [].
Proof.
  apply (filtered_degenerate Sample.campaign); [reflexivity|].
  left. simpl. lia.
Defined.

(* ================================================================== *)
(** ** The summary on views with records *)
(* ================================================================== *)

Lemma pos_of_nat_Z (n : nat) : n <> 0 -> Zpos (Pos.of_nat n) = Z.of_nat n.
Proof.
  intros Hn. rewrite <- (Nat2Pos.id n Hn) at 2. symmetry. apply positive_nat_Z.
Qed.

Lemma sum_within (lo hi : Z) (s : list Z) :
  (forall a, In a s -> (lo <= a <= hi)%Z) ->
  (lo * Z.of_nat (List.length s) <= fold_right Z.add 0%Z s
   <= hi * Z.of_nat (List.length s))%Z.
Proof.
  induction s as [|a s IH]; intros Hall; [simpl; lia|].
  specialize (IH (fun b Hb => Hall b (or_intror Hb))).
  pose proof (Hall a (or_introl eq_refl)) as Ha.
  change (fold_right Z.add 0%Z (a :: s)) with (a + fold_right Z.add 0%Z s)%Z.
  change (List.length (a :: s)) with (S (List.length s)).
  rewrite Nat2Z.inj_succ. lia.
Qed.

(** X10.  On a filtered view with records the average age is a finite
    number, not nan, and lies within the selected age range. *)
Theorem avg_age_within_range (df : DataFrame) (c : Criteria)
        (view : DataFrame) :
  filtered df c = Ok view ->
  rows view <> [] ->
  exists q,
    avg_age view = Ok (Fin q) /\
    (inject_Z (fst (age_range c)) <= q)%Q /\
    (q <= inject_Z (snd (age_range c)))%Q.
Proof.
  intros Hf Hrows.
  destruct (filtered_has_age_job _ _ _ Hf) as [Hage _].
  assert (Hall : forall a, In a (map age (rows view)) ->
                 (fst (age_range c) <= a <= snd (age_range c))%Z).
  { intros a Ha. apply in_map_iff in Ha. destruct Ha as [r [<- Hin]].
    rewrite (filtered_view _ _ _ Hf) in Hin. simpl in Hin.
    apply filter_In in Hin. destruct Hin as [_ Hk].
    apply keep_iff in Hk. apply Hk. }
  apply sum_within in Hall. rewrite length_map in Hall.
  unfold avg_age, getitem. rewrite Hage. simpl.
  destruct (rows view) as [|r rs] eqn:Hrs; [congruence|].
  eexists. split; [reflexivity|]. rewrite length_map.
  set (n := List.length (r :: rs)) in *.
  set (total_age := fold_right Z.add 0%Z (map age (r :: rs))) in *.
  assert (Hn : Zpos (Pos.of_nat n) = Z.of_nat n) by now apply pos_of_nat_Z.
  clearbody n total_age.
  split; rewrite Qred_correct; unfold Qle; simpl; rewrite Hn; lia.
Qed.

Lemma avg_age_within_range_witness :
  exists q,
    avg_age Sample.scenario = Ok (Fin q) /\
    (inject_Z (fst (age_range Sample.everyone)) <= q)%Q /\
    (q <= inject_Z (snd (age_range Sample.everyone)))%Q.
Proof.
  apply (avg_age_within_range Sample.scenario Sample.everyone);
    [reflexivity | discriminate].
Defined.

Lemma total_perm (l l' : list (string * nat)) :
  Permutation l l' -> total l = total l'.
Proof.
  unfold total. induction 1; simpl; lia.
Qed.

Lemma total_bump (v : string) (acc : list (string * nat)) :
  total (bump v acc) = S (total acc).
Proof.
  unfold total. induction acc as [|[k n] t IH]; simpl; [reflexivity|].
  destruct (String.eqb k v); simpl; lia.
Qed.

Lemma total_counts (s : Series string) : total (counts s) = List.length s.
Proof.
  induction s as [|v s IH] using rev_ind; [reflexivity|].
  rewrite counts_snoc, total_bump, IH, length_app. simpl. lia.
Qed.

Lemma get_perm (k : string) (l l' : list (string * nat)) :
  NoDup (map fst l) -> Permutation l l' -> get k l' = get k l.
Proof.
  intros Hnd Hp.
  assert (Hnd' : NoDup (map fst l'))
    by (eapply Permutation_NoDup; [apply Permutation_map, Hp | exact Hnd]).
  destruct (get k l) as [n|] eqn:Hl.
  - apply In_get; [exact Hnd'|]. apply (Permutation_in _ Hp).
    now apply In_get.
  - destruct (get k l') as [n|] eqn:Hl'; [|reflexivity].
    apply In_get in Hl'; [|exact Hnd'].
    apply (Permutation_in _ (Permutation_sym Hp)) in Hl'.
    apply In_get in Hl'; [congruence | exact Hnd].
Qed.

Lemma get_map (V W : Type) (g : string * V -> W) (k : string)
      (l : list (string * V)) :
  get k (map (fun kc => (fst kc, g kc)) l) =
  match get k l with
  | Some v => Some (g (k, v))
  | None => None
  end.
Proof.
  induction l as [|[k' v] t IH]; simpl; [reflexivity|].
  destruct (String.eqb_spec k' k) as [->|Hne]; [reflexivity | exact IH].
Qed.

Section Rate.

Context `{SortKind}.

Lemma get_value_counts (s : Series string) (k : string) :
  get k (value_counts s) =
  match occurrences s k with 0 => None | S n => Some (S n) end.
Proof.
  unfold value_counts. rewrite <- get_counts.
  apply get_perm; [apply counts_keys_NoDup|].
  apply Permutation_sym, sort_desc_perm.
Qed.

Lemma total_value_counts (s : Series string) :
  total (value_counts s) = List.length s.
Proof.
  unfold value_counts. rewrite (total_perm _ _ (sort_desc_perm (counts s))).
  apply total_counts.
Qed.

End Rate.

(** X11.  On a view with the label column: when no record is labelled yes
    the rate is the integer 0; otherwise it is a float, above 0 and at most
    100.  This holds for every sorting kernel. *)
Theorem subscription_rate_share `{SortKind} (view : DataFrame) :
  has_column view "y" = true ->
  (occurrences (map y (rows view)) "yes" = 0 ->
   subscription_rate view = Ok (PyInt 0)) /\
  (0 < occurrences (map y (rows view)) "yes" ->
   exists q,
     subscription_rate view = Ok (PyFloat (Fin q)) /\
     (0 < q)%Q /\ (q <= inject_Z 100)%Q).
Proof.
  intros Hy. unfold subscription_rate, getitem. rewrite Hy. unfold bind.
  unfold value_counts_normalized. fold (total (value_counts (map y (rows view)))).
  rewrite total_value_counts, length_map.
  rewrite (get_map nat Q
             (fun kc => Qred (Z.of_nat (snd kc)
                              # Pos.of_nat (List.length (rows view)))%Q)).
  rewrite get_value_counts.
  pose proof (count_occ_bound string_dec "yes"%string (map y (rows view))) as Hle.
  rewrite length_map in Hle. fold (occurrences (map y (rows view)) "yes") in Hle.
  destruct (occurrences (map y (rows view)) "yes") as [|k] eqn:Hocc; split.
  - reflexivity.
  - intros Hpos. lia.
  - discriminate.
  - intros _. eexists. split; [reflexivity|].
    set (n := List.length (rows view)) in *.
    assert (Hn : Zpos (Pos.of_nat n) = Z.of_nat n) by (apply pos_of_nat_Z; lia).
    clearbody n. simpl snd. split.
    + rewrite Qred_correct, Qred_correct. unfold Qlt, Qmult. simpl. lia.
    + rewrite Qred_correct, Qred_correct. unfold Qle, Qmult.
      cbn [Qnum Qden inject_Z]. rewrite ?Pos2Z.inj_mul, Hn. lia.
Qed.

Lemma subscription_rate_share_witness :
  (occurrences (map y (rows Sample.scenario)) "yes" = 0 ->
   subscription_rate (H := stable_kind) Sample.scenario = Ok (PyInt 0)) /\
  (0 < occurrences (map y (rows Sample.scenario)) "yes" ->
   exists q,
     subscription_rate (H := stable_kind) Sample.scenario
     = Ok (PyFloat (Fin q)) /\
     (0 < q)%Q /\ (q <= inject_Z 100)%Q).
Proof.
  apply (subscription_rate_share (H := stable_kind) Sample.scenario).
  reflexivity.
Defined.

(** X12.  When the data set has the label column the insight block of a
    filtered view is built without an exception, for every criteria and
    every sorting kernel, also on a view without records: its three fields
    are the average age to one decimal, the top job, and the rate to two
    decimals. *)
Theorem st_info_labelled `{SortKind} (df : DataFrame) (c : Criteria)
        (view : DataFrame) :
  has_column df "y" = true ->
  filtered df c = Ok view ->
  exists i rate,
    insight view = Ok i /\
    format_f 2 (insight_subscription_rate i) = Ok (Fixed 2 rate) /\
    st_info view =
    Ok [ Text "**Insight Highlights**";
         Text "- Average age of selected customers: ";
         Fixed 1 (insight_avg_age i);
         Text "- Most common job in this customer segment: ";
         Text (insight_top_job i);
         Text "- Estimated subscription likelihood (term deposit): ";
         Fixed 2 rate;
         Text "%" ].
Proof.
  intros Hy Hf.
  destruct (filtered_has_age_job _ _ _ Hf) as [Hage Hjob].
  destruct (avg_age_returns view Hage) as [a Ha].
  destruct (top_job_returns view Hjob) as [j Hj].
  rewrite <- (filtered_has_column _ _ _ "y"%string Hf) in Hy.
  assert (Hs : exists rate s, subscription_rate view = Ok s /\
                              format_f 2 s = Ok (Fixed 2 rate)).
  { unfold subscription_rate, getitem. rewrite Hy. unfold bind.
    destruct (get "yes" (value_counts_normalized (map y (rows view))));
      eexists; eexists; split; reflexivity. }
  destruct Hs as [rate [s [Hs Hfmt]]].
  exists (mkInsight a j s), rate.
  unfold st_info, insight. rewrite Ha, Hj, Hs. unfold bind, insight_block.
  cbn [insight_subscription_rate insight_avg_age insight_top_job format_f].
  rewrite Hfmt. unfold bind. repeat split.
Qed.

Lemma st_info_labelled_witness :
  exists i rate,
    insight (H := stable_kind) Sample.scenario_nobody = Ok i /\
    format_f 2 (insight_subscription_rate i) = Ok (Fixed 2 rate) /\
    st_info (H := stable_kind) Sample.scenario_nobody =
    Ok [ Text "**Insight Highlights**";
         Text "- Average age of selected customers: ";
         Fixed 1 (insight_avg_age i);
         Text "- Most common job in this customer segment: ";
         Text (insight_top_job i);
         Text "- Estimated subscription likelihood (term deposit): ";
         Fixed 2 rate;
         Text "%" ].
Proof.
  apply (st_info_labelled (H := stable_kind) Sample.scenario Sample.nobody);
    reflexivity.
Defined.

(** X13.  On a filtered view with records the top job is one of the
    selected jobs. *)
Theorem top_job_selected (df : DataFrame) (c : Criteria) (view : DataFrame) :
  filtered df c = Ok view ->
  empty view = false ->
  exists j, top_job view = Ok j /\ In j (selected_jobs c).
Proof.
  intros Hf He.
  destruct (filtered_has_age_job _ _ _ Hf) as [_ Hjob].
  destruct (top_job_nonempty view Hjob He) as [j [rest [Hmode Htop]]].
  exists j. split; [exact Htop|].
  assert (Hj : In j (mode (map job (rows view)))) by (rewrite Hmode; now left).
  apply mode_In in Hj. destruct Hj as [Hpos _].
  apply (count_occ_In string_dec) in Hpos.
  apply in_map_iff in Hpos. destruct Hpos as [r [<- Hin]].
  rewrite (filtered_view _ _ _ Hf) in Hin. simpl in Hin.
  apply filter_In in Hin. destruct Hin as [_ Hk].
  apply keep_iff in Hk. apply Hk.
Qed.

Lemma top_job_selected_witness :
  exists j,
    top_job Sample.scenario = Ok j /\ In j (selected_jobs Sample.everyone).
Proof.
  apply (top_job_selected Sample.scenario Sample.everyone); reflexivity.
Defined.

(* ================================================================== *)
(** ** The series behind the bar chart *)
(* ================================================================== *)

(** X14.  In either sort mode and for every sorting kernel, the job counts
    of a view with the job column list each job of the view once, with the
    number of records that have it; the counts add up to the number of
    records. *)
Theorem job_counts_content `{SortKind} (view : DataFrame) (m : sort_type) :
  has_column view "job" = true ->
  exists jc,
    job_counts view m = Ok jc /\
    NoDup (map fst jc) /\
    (forall j n, In (j, n) jc <->
                 n = occurrences (map job (rows view)) j /\ 0 < n) /\
    total jc = len view.
Proof.
  intros Hjob. unfold job_counts, getitem. rewrite Hjob. unfold bind.
  set (jobs := map job (rows view)).
  assert (Hp : Permutation
                 (match m with
                  | Alphabetical => value_counts jobs
                  | MostCommon => sort_desc (value_counts jobs)
                  end) (counts jobs)).
  { unfold value_counts. destruct m; now rewrite !sort_desc_perm. }
  eexists. split; [reflexivity|]. split; [|split].
  - apply (Permutation_NoDup (Permutation_map fst (Permutation_sym Hp))).
    apply counts_keys_NoDup.
  - intros j n. rewrite <- In_counts. split; apply Permutation_in;
      [exact Hp | exact (Permutation_sym Hp)].
  - rewrite (total_perm _ _ Hp), total_counts. unfold jobs, len.
    apply length_map.
Qed.

Lemma job_counts_content_witness :
  exists jc,
    job_counts (H := stable_kind) Sample.campaign Alphabetical = Ok jc /\
    NoDup (map fst jc) /\
    (forall j n, In (j, n) jc <->
                 n = occurrences (map job (rows Sample.campaign)) j /\ 0 < n) /\
    total jc = len Sample.campaign.
Proof.
  apply (job_counts_content (H := stable_kind) Sample.campaign Alphabetical).
  reflexivity.
Defined.

(** X15.  Every job listed in the job counts of a filtered view is one of
    the selected jobs. *)
Theorem job_counts_selected `{SortKind} (df : DataFrame) (c : Criteria)
        (view : DataFrame) (m : sort_type) :
  filtered df c = Ok view ->
  exists jc,
    job_counts view m = Ok jc /\
    forall j n, In (j, n) jc -> In j (selected_jobs c).
Proof.
  intros Hf. destruct (filtered_has_age_job _ _ _ Hf) as [_ Hjob].
  unfold job_counts, getitem. rewrite Hjob. unfold bind.
  eexists. split; [reflexivity|]. intros j n Hin.
  assert (Hc : In (j, n) (counts (map job (rows view)))).
  { unfold value_counts in Hin. destruct m.
    - now apply (Permutation_in _ (sort_desc_perm _)) in Hin.
    - apply (Permutation_in _ (sort_desc_perm _)) in Hin.
      now apply (Permutation_in _ (sort_desc_perm _)) in Hin. }
  apply In_counts in Hc. destruct Hc as [-> Hpos].
  apply (count_occ_In string_dec) in Hpos.
  apply in_map_iff in Hpos. destruct Hpos as [r [<- Hr]].
  rewrite (filtered_view _ _ _ Hf) in Hr. simpl in Hr.
  apply filter_In in Hr. destruct Hr as [_ Hk].
  apply keep_iff in Hk. apply Hk.
Qed.

Lemma job_counts_selected_witness :
  exists jc,
    job_counts (H := stable_kind) Sample.scenario MostCommon = Ok jc /\
    forall j n, In (j, n) jc -> In j (selected_jobs Sample.everyone).
Proof.
  apply (job_counts_selected (H := stable_kind)
           Sample.scenario Sample.everyone); reflexivity.
Defined.

Lemma counts_sorted_desc (l : list (string * nat)) :
  StronglySorted count_ge l -> StronglySorted Peano.ge (map snd l).
Proof.
  induction 1 as [|a t Hs IH Hall]; simpl; constructor; [exact IH|].
  apply Forall_map. eapply Forall_impl; [|exact Hall].
  unfold count_ge. intros b Hb. lia.
Qed.

(** Two descending lists with the same elements are the same list. *)
Lemma sorted_desc_unique (l1 l2 : list nat) :
  StronglySorted Peano.ge l1 -> StronglySorted Peano.ge l2 -> Permutation l1 l2 ->
  l1 = l2.
Proof.
  intros Hs1. revert l2. induction Hs1 as [|a t1 Hs1 IH Hall1].
  - intros l2 _ Hp. symmetry. now apply Permutation_nil.
  - intros l2 Hs2 Hp. destruct l2 as [|b t2].
    + apply Permutation_sym, Permutation_nil in Hp. discriminate.
    + inversion Hs2 as [|? ? Hs2' Hall2]; subst.
      rewrite Forall_forall in Hall1, Hall2.
      assert (Hab : a = b).
      { assert (Ha : In a (b :: t2))
          by (apply (Permutation_in _ Hp); now left).
        assert (Hb : In b (a :: t1))
          by (apply (Permutation_in _ (Permutation_sym Hp)); now left).
        destruct Ha as [Ha|Ha]; [congruence|].
        destruct Hb as [Hb|Hb]; [congruence|].
        apply Hall2 in Ha. apply Hall1 in Hb. lia. }
      subst b. f_equal. apply IH; [exact Hs2'|].
      now apply Permutation_cons_inv in Hp.
Qed.

(** X16.  Both sort modes return the counts in non-increasing order: they
    are rearrangements of each other with the same sequence of counts, so
    they can differ only in the order of jobs of equal count. *)
Theorem job_counts_modes_agree `{SortKind} (view : DataFrame) :
  has_column view "job" = true ->
  exists a mc,
    job_counts view Alphabetical = Ok a /\
    job_counts view MostCommon = Ok mc /\
    StronglySorted count_ge a /\
    Permutation a mc /\
    map snd a = map snd mc.
Proof.
  intros Hjob. unfold job_counts, getitem. rewrite Hjob. unfold bind.
  do 2 eexists. split; [reflexivity|]. split; [reflexivity|].
  split; [apply sort_desc_sorted|].
  split; [apply Permutation_sym, sort_desc_perm|].
  apply sorted_desc_unique.
  - apply counts_sorted_desc, sort_desc_sorted.
  - apply counts_sorted_desc, sort_desc_sorted.
  - apply Permutation_map, Permutation_sym, sort_desc_perm.
Qed.

Lemma job_counts_modes_agree_witness :
  exists a mc,
    job_counts (H := stable_kind) Sample.campaign Alphabetical = Ok a /\
    job_counts (H := stable_kind) Sample.campaign MostCommon = Ok mc /\
    StronglySorted count_ge a /\
    Permutation a mc /\
    map snd a = map snd mc.
Proof.
  apply (job_counts_modes_agree (H := stable_kind) Sample.campaign).
  reflexivity.
Defined.

(* ================================================================== *)
(** ** The correlation tab and the preview of a filtered view *)
(* ================================================================== *)

Lemma filter_nil_iff (A : Type) (p : A -> bool) (l : list A) :
  filter p l = [] <-> forall x, In x l -> p x = false.
Proof.
  induction l as [|a l IH]; simpl.
  - split; [intros _ x [] | reflexivity].
  - destruct (p a) eqn:Hp; split.
    + discriminate.
    + intros Hall. specialize (Hall a (or_introl eq_refl)). congruence.
    + intros Hnil x [<-|Hin]; [exact Hp | now apply IH].
    + intros Hall. apply IH. intros x Hin. apply Hall. now right.
Qed.

(** X17.  For a filtered view the correlation tab shows the warning exactly
    when the data set has no numeric column or no record passes the
    filter; otherwise the heat map is labelled by the numeric columns of
    the data set, in their order. *)
Theorem tab_corr_filtered (df : DataFrame) (c : Criteria) (view : DataFrame) :
  filtered df c = Ok view ->
  (is_warning (tab_corr view) = true <->
   (forall col, In col (columns df) -> is_number (snd col) = false) \/
   (forall r, In r (rows df) -> keep c r = false)) /\
  (is_warning (tab_corr view) = false ->
   tab_corr view =
   Heatmap (map fst (filter (fun col => is_number (snd col)) (columns df)))).
Proof.
  intros Hf. rewrite (filtered_view _ _ _ Hf).
  unfold tab_corr, numeric_cols, select_dtypes_number. cbn [columns rows].
  set (numeric := filter (fun col => is_number (snd col)) (columns df)).
  set (kept := filter (keep c) (rows df)).
  assert (He : empty (mkFrame numeric kept) = true <->
               (forall col, In col (columns df) -> is_number (snd col) = false) \/
               (forall r, In r (rows df) -> keep c r = false)).
  { rewrite empty_iff. cbn [columns rows]. unfold numeric, kept.
    now rewrite !filter_nil_iff. }
  destruct (empty (mkFrame numeric kept)); simpl; split.
  - split; [intros _; now apply He | reflexivity].
  - discriminate.
  - split; [discriminate | intros Hor; apply He in Hor; discriminate].
  - reflexivity.
Qed.

Lemma tab_corr_filtered_witness :
  (is_warning (tab_corr Sample.scenario_nobody) = true <->
   (forall col, In col (columns Sample.scenario) ->
                is_number (snd col) = false) \/
   (forall r, In r (rows Sample.scenario) -> keep Sample.nobody r = false)) /\
  (is_warning (tab_corr Sample.scenario_nobody) = false ->
   tab_corr Sample.scenario_nobody =
   Heatmap (map fst (filter (fun col => is_number (snd col))
                            (columns Sample.scenario)))).
Proof.
  apply (tab_corr_filtered Sample.scenario Sample.nobody). reflexivity.
Defined.

(** X18.  The data preview of a filtered view has the columns of the data
    set and the first records of the view, fifteen of them or all when the
    view has fewer; each is a record of the data set that passes the
    filter. *)
Theorem preview_first_rows (df : DataFrame) (c : Criteria) (view : DataFrame) :
  filtered df c = Ok view ->
  columns (preview view) = columns df /\
  len (preview view) = Nat.min 15 (len view) /\
  (exists rest, rows view = rows (preview view) ++ rest) /\
  (len view <= 15 -> preview view = view) /\
  (forall r, In r (rows (preview view)) ->
             In r (rows df) /\ keep c r = true).
Proof.
  intros Hf. unfold preview, head, len.
  cbn [columns rows].
  split; [now rewrite (filtered_view _ _ _ Hf)|].
  split; [apply length_firstn|].
  split; [exists (skipn 15 (rows view)); symmetry; apply firstn_skipn|].
  split.
  - intros Hle. rewrite firstn_all2 by exact Hle. now destruct view.
  - intros r Hin.
    assert (Hv : In r (rows view)).
    { rewrite <- (firstn_skipn 15 (rows view)). apply in_or_app. now left. }
    rewrite (filtered_view _ _ _ Hf) in Hv. simpl in Hv.
    now apply filter_In in Hv.
Qed.

Lemma preview_first_rows_witness :
  columns (preview Sample.campaign) = columns Sample.campaign /\
  len (preview Sample.campaign) = Nat.min 15 (len Sample.campaign) /\
  (exists rest, rows Sample.campaign = rows (preview Sample.campaign) ++ rest) /\
  (len Sample.campaign <= 15 -> preview Sample.campaign = Sample.campaign) /\
  (forall r, In r (rows (preview Sample.campaign)) ->
             In r (rows Sample.campaign) /\ keep Sample.everyone r = true).
Proof.
  apply (preview_first_rows Sample.campaign Sample.everyone). reflexivity.
Defined.

(* ================================================================== *)
(** ** The filter block on names and objects *)
(* ================================================================== *)







(* ================================================================== *)
(** ** Most Common and the order of equal counts *)
(* ================================================================== *)







